(** * The JSON-RPC method dispatcher ([jsonrpc/dispatcher.py])

    A shallow embedding of the [Dispatcher] class: the dictionary-like
    object that maps method names to Python callables, with an optional
    fallback callable for names that are not registered.

    Python objects are embedded as the inductive type [value]; the methods
    of the class are computations in a state-and-exception monad over the
    instance ([self]), so that both what a method returns or raises and what
    it leaves behind in the instance can be stated.  The handling of one
    request by the response manager, which sits on top of the dispatcher,
    follows in [Manager]. *)

From stdpp Require Import gmap strings list fin_maps.

Local Set Warnings "-register-all".
Local Open Scope string_scope.

(** ** Python values *)

(** The objects that flow through the dispatcher.  Callables are function
    objects ([def], [lambda] and bound methods, which all carry a
    [__name__]; [code] identifies the body that runs when they are called),
    [functools.partial] objects, which carry none, and instances of classes
    that define [__call__]: these carry no [__name__] either, and their
    truth value is whatever their [__bool__] or [__len__] says.  Keyword
    arguments are a dictionary with string keys. *)
Inductive value : Type :=
| VNone
| VBool (b : bool)
| VInt (n : Z)
| VStr (s : string)
| VFunction (name : string) (code : nat)
| VPartial (func : value) (args : list value) (keywords : gmap string value)
| VCallable (code : nat) (truth : bool).

Abbreviation kwargs := (gmap string value).

(** [callable(v)] *)
Definition callable (v : value) : bool :=
  match v with
  | VFunction _ _ | VPartial _ _ _ | VCallable _ _ => true
  | _ => false
  end.

(** [bool(s)] for a string: only [''] is false. *)
Definition truthy_str (s : string) : bool := negb (String.eqb s "").

(** [bool(v)], the truth value tested by [if v:], [not v], [and], [or]. *)
Definition truthy (v : value) : bool :=
  match v with
  | VNone => false
  | VBool b => b
  | VInt n => negb (n =? 0)%Z
  | VStr s => truthy_str s
  | VFunction _ _ | VPartial _ _ _ => true
  | VCallable _ truth => truth
  end.

(** Truth value of an optional string argument ([None] and [''] are false). *)
Definition truthy_name (name : option string) : bool :=
  match name with
  | None => false
  | Some s => truthy_str s
  end.

(** An optional string argument as the object it is: [None] or a [str]. *)
Definition value_of_name (name : option string) : value :=
  match name with
  | None => VNone
  | Some s => VStr s
  end.

(** ** Exceptions and the method monad *)

(** The exceptions raised by the dictionary, by attribute access, by
    [functools.partial] and by the iteration of a dictionary, and those a
    handler may raise: an error of the protocol, with its code, message and
    data, or any other exception, with its description. *)
Inductive exn : Type :=
| KeyError (key : string)
| AttributeError (attr : string)
| TypeError (msg : string)
| RuntimeError (msg : string)
| RPCError (code : Z) (message : string) (data : option value)
| Exception (description : string).

Inductive outcome (A : Type) : Type :=
| Returned (a : A)
| Raised (e : exn).
Arguments Returned {A} a.
Arguments Raised {A} e.

(** The instance: [self.method_map] and [self.fallback]. *)
Record Dispatcher : Type := mkDispatcher {
  method_map : gmap string value;
  fallback : value
}.

(** A method body: it runs on an instance, returns or raises, and leaves
    the instance in a new state. *)
Definition M (A : Type) : Type := Dispatcher → outcome A * Dispatcher.

Definition ret {A} (a : A) : M A := λ self, (Returned a, self).

Definition bind {A B} (m : M A) (k : A → M B) : M B :=
  λ self,
    match m self with
    | (Returned a, self') => k a self'
    | (Raised e, self') => (Raised e, self')
    end.

Definition raise {A} (e : exn) : M A := λ self, (Raised e, self).

(** [try: body except Exception as err: handler(err)] *)
Definition try_except {A} (body : M A) (handler : exn → M A) : M A :=
  λ self,
    match body self with
    | (Returned a, self') => (Returned a, self')
    | (Raised e, self') => handler e self'
    end.

Definition get_method_map : M (gmap string value) :=
  λ self, (Returned (method_map self), self).
Definition get_fallback : M value :=
  λ self, (Returned (fallback self), self).
Definition set_method_map (m : gmap string value) : M unit :=
  λ self, (Returned tt, mkDispatcher m (fallback self)).
Definition set_fallback (f : value) : M unit :=
  λ self, (Returned tt, mkDispatcher (method_map self) f).

#[global] Instance M_ret : MRet M := @ret.
#[global] Instance M_bind : MBind M := λ A B k m, bind m k.

(** What a computation returns or raises, and the state it leaves. *)
Definition result {A} (m : M A) (self : Dispatcher) : outcome A := fst (m self).
Definition state_after {A} (m : M A) (self : Dispatcher) : Dispatcher := snd (m self).

(** ** Library operations used by the class *)

(** [d[key]] on a plain dict. *)
Definition dict_getitem (d : gmap string value) (key : string) : M value :=
  match d !! key with
  | Some v => mret v
  | None => raise (KeyError key)
  end.

(** [del d[key]] on a plain dict. *)
Definition dict_delitem (d : gmap string value) (key : string) : M (gmap string value) :=
  match d !! key with
  | Some _ => mret (delete key d)
  | None => raise (KeyError key)
  end.

(** [functools.partial(func, *args, **keywords)].  A partial object made
    of a partial object is kept nested, as it is written; an interpreter
    may store it flattened, which calls the same ([call_partial_nested]
    below). *)
Definition functools_partial (func : value) (args : list value) (keywords : kwargs) : M value :=
  if callable func then mret (VPartial func args keywords)
  else raise (TypeError "the first argument must be callable").

(** [f.__name__] *)
Definition getattr___name__ (f : value) : M string :=
  match f with
  | VFunction name _ => mret name
  | _ => raise (AttributeError "__name__")
  end.

(** ** The methods of [Dispatcher] *)

Definition __getitem__ (key : string) : M value :=
  try_except
    (m ← get_method_map; dict_getitem m key)
    (λ err,
       match err with
       | KeyError _ =>
           fb ← get_fallback;
           if truthy fb
           then functools_partial fb [] {["_method" := VStr key]}
           else raise err
       | _ => raise err
       end).

Definition __setitem__ (key : string) (v : value) : M unit :=
  m ← get_method_map; set_method_map (<[key := v]> m).

Definition __delitem__ (key : string) : M unit :=
  m ← get_method_map; m' ← dict_delitem m key; set_method_map m'.

Definition __len__ : M nat :=
  m ← get_method_map; mret (size m).

(** [self.add_method], the bound method object that the decorator form of
    [add_method] hands to [functools.partial].  It is a function object
    named [add_method]; [add_method_code] identifies its body. *)
Definition add_method_code : nat := 0.
Definition self_add_method : value := VFunction "add_method" add_method_code.

Definition fallback_method (f : value) : M value :=
  set_fallback f;; mret f.

Definition add_method (f : value) (name : option string) : M value :=
  if truthy_name name && negb (truthy f)
  then functools_partial self_add_method [] {["name" := value_of_name name]}
  else
    key ← (match name with
           | Some n => if truthy_str n then mret n else getattr___name__ f
           | None => getattr___name__ f
           end);
    m ← get_method_map;
    set_method_map (<[key := f]> m);;
    mret f.

(** [for x in l: body(x)] *)
Fixpoint for_each {A} (l : list A) (body : A → M unit) : M unit :=
  match l with
  | [] => mret tt
  | x :: rest => body x;; for_each rest body
  end.

(** What [build_method_map] is given:
    - a dict (an instance of [dict] or of a subclass of it) that is not
      the dispatcher's own [method_map], seen through its [items()], in
      iteration order, keys distinct;
    - the dispatcher's own [self.method_map], whose keys come in the order
      [keys] when it is iterated;
    - any other object, seen through the pairs [(m, getattr(obj, m))] for
      [m] in [dir(obj)]: reading an attribute returns a value or raises,
      and may run code that touches the dispatcher. *)
Inductive prototype : Type :=
| PDict (items : list (string * value))
| PMethodMap (keys : list string)
| PObject (attrs : list (string * M value)).

(** [not method.startswith('_')] *)
Definition is_public (method : string) : bool := negb (String.prefix "_" method).

(** The dict that [build_method_map] makes of an object that is not one:
    the public names of [dir(prototype)], each with the attribute read
    under it, in that order; the first read that raises ends it. *)
Fixpoint read_public (attrs : list (string * M value)) : M (list (string * value)) :=
  match attrs with
  | [] => mret []
  | (method, getattr) :: rest =>
      if is_public method
      then v ← getattr; items ← read_public rest; mret ((method, v) :: items)
      else read_public rest
  end.

(** The loop of [build_method_map] when it runs over the items of the
    dictionary it is writing to (Python 3): each step reads the value its
    key has by then; an assignment to a key that is already there lets the
    iteration go on, and once an assignment has added a key the next step
    of the iteration raises [RuntimeError]. *)
Fixpoint for_each_own_item (prefix : string) (keys : list string) : M unit :=
  match keys with
  | [] => mret tt
  | attr :: rest =>
      m ← get_method_map;
      match m !! attr with
      | Some method =>
          if callable method
          then
            __setitem__ (prefix ++ attr) method;;
            match m !! (prefix ++ attr) with
            | Some _ => for_each_own_item prefix rest
            | None => raise (RuntimeError "dictionary changed size during iteration")
            end
          else for_each_own_item prefix rest
      | None => for_each_own_item prefix rest
      end
  end.

Definition build_method_map (proto : prototype) (prefix : string) : M unit :=
  match proto with
  | PMethodMap keys => for_each_own_item prefix keys
  | PDict items =>
      for_each items
        (λ '(attr, method),
           if callable method then __setitem__ (prefix ++ attr) method else mret tt)
  | PObject attrs =>
      items ← read_public attrs;
      for_each items
        (λ '(attr, method),
           if callable method then __setitem__ (prefix ++ attr) method else mret tt)
  end.

Definition add_dict (dict : prototype) (prefix : string) : M unit :=
  let prefix := if truthy_str prefix then prefix ++ "." else prefix in
  build_method_map dict prefix.

Definition __init__ (proto : option prototype) : M unit :=
  set_method_map ∅;;
  set_fallback VNone;;
  match proto with
  | Some p => build_method_map p ""
  | None => mret tt
  end.

(** ** Calling a Python object *)

Section Calls.

(** The bodies of the function objects are outside the dispatcher:
    [run_code c args kw] is what running body [c] on positional arguments
    [args] and keyword arguments [kw] does.  A body may return, raise,
    and read or change the dispatcher it closes over. *)
Variable run_code : nat → list value → kwargs → M value.

(** Calling [f] on [args] and [kw].  A partial object calls its function
    with its own positional arguments first and with the keywords
    [{**keywords, **kw}]: a keyword given at the call replaces the stored
    one. *)
Fixpoint call (f : value) (args : list value) (kw : kwargs) : M value :=
  match f with
  | VFunction _ code | VCallable code _ => run_code code args kw
  | VPartial func pargs pkw => call func (pargs ++ args) (kw ∪ pkw)
  | _ => raise (TypeError "object is not callable")
  end.

End Calls.

(** ** The request manager ([jsonrpc/manager.py])

    [jsonrpc/__init__.py] imports [JSONRPCResponseManager] from
    [jsonrpc/manager.py].  The part of the manager that handles decoded
    requests is modelled from the specification (sections 3, 4.2, 4.3, 4.4
    and 7), on top of the dispatcher above. *)
Module Manager.

(** An identifier that is present: text, integer or null. *)
Inductive Identifier : Type :=
| IdStr (s : string)
| IdInt (n : Z)
| IdNull.

Inductive Params : Type :=
| ParamsAbsent
| ParamsPositional (args : list value)
| ParamsKeyed (kw : kwargs).

Inductive ProtocolVersion : Type := V1 | V2.

(** [id = None] is the absent identifier: the request is a notification. *)
Record RequestModel : Type := mkRequest {
  method : string;
  params : Params;
  id : option Identifier;
  version : ProtocolVersion
}.

Record ErrorObject : Type := mkError {
  code : Z;
  message : string;
  data : option value
}.

(** Exactly one of [result] and [error]. *)
Inductive Payload : Type :=
| Result (v : value)
| Error (e : ErrorObject).

Record ResponseModel : Type := mkResponse {
  response_id : Identifier;
  response_version : ProtocolVersion;
  payload : Payload
}.

(** What is handed back to the transport. *)
Inductive Output : Type :=
| NoOutput
| Single (r : ResponseModel)
| Batch (rs : list ResponseModel).

Definition MethodNotFound : ErrorObject := mkError (-32601) "Method not found" None.
Definition InvalidRequest : ErrorObject := mkError (-32600) "Invalid Request" None.
Definition InternalError : ErrorObject := mkError (-32603) "Internal error" None.
Definition ServerError (description : string) : ErrorObject :=
  mkError (-32000) description None.

(** The description of an exception, used as a server error's message. *)
Definition describe (e : exn) : string :=
  match e with
  | KeyError key => key
  | AttributeError attr => attr
  | TypeError msg => msg
  | RuntimeError msg => msg
  | RPCError _ message _ => message
  | Exception description => description
  end.

Section Dispatch.

Variable run_code : nat → list value → kwargs → M value.

(** Modelled from the spec: the lookup step of dispatch in
    [jsonrpc/manager.py] (section 4.3): the method is looked up in the
    registry; not found and no fallback is [MethodNotFound], and any
    other failure of the manager's own steps is [InternalError]. *)
Definition resolve (name : string) : M (ErrorObject + value) :=
  try_except
    (f ← __getitem__ name; mret (inr f))
    (λ err,
       match err with
       | KeyError _ => mret (inl MethodNotFound)
       | _ => mret (inl InternalError)
       end).

(** Modelled from the spec: the invocation step of dispatch in
    [jsonrpc/manager.py] (section 4.3): keyed parameters are passed as
    named arguments, positional ones as positional arguments, absent
    ones as a call without arguments; a protocol-level error signalled
    by the callable is propagated verbatim, any other exception becomes
    a server error with code -32000 and the exception's description;
    a returned value is wrapped as the result. *)
Definition invoke (f : value) (p : Params) : M Payload :=
  try_except
    (v ← (match p with
          | ParamsAbsent => call run_code f [] ∅
          | ParamsPositional args => call run_code f args ∅
          | ParamsKeyed kw => call run_code f [] kw
          end);
     mret (Result v))
    (λ err,
       match err with
       | RPCError c m d => mret (Error (mkError c m d))
       | _ => mret (Error (ServerError (describe err)))
       end).

(** Modelled from the spec: dispatch of one valid request in
    [jsonrpc/manager.py] (section 4.3): resolve, invoke, and then
    discard the outcome when the identifier is absent, or else build
    the response that carries the request's identifier and version. *)
Definition dispatch (req : RequestModel) : M (option ResponseModel) :=
  r ← resolve (method req);
  p ← (match r with
       | inl e => mret (Error e)
       | inr f => invoke f (params req)
       end);
  match id req with
  | None => mret None
  | Some i => mret (Some (mkResponse i (version req) p))
  end.

(** Modelled from the spec: the encode step for a single request in
    [jsonrpc/manager.py] (section 4.4): the single response, or no
    output at all for a notification. *)
Definition process_single (req : RequestModel) : M Output :=
  r ← dispatch req;
  match r with
  | Some resp => mret (Single resp)
  | None => mret NoOutput
  end.

(** Modelled from the spec: dispatch of the valid members of a batch in
    [jsonrpc/manager.py] (section 4.4): the responses produced, in
    input order, notifications skipped. *)
Fixpoint dispatch_all (reqs : list RequestModel) : M (list ResponseModel) :=
  match reqs with
  | [] => mret []
  | req :: rest =>
      r ← dispatch req;
      rs ← dispatch_all rest;
      mret (match r with Some resp => resp :: rs | None => rs end)
  end.

(** Modelled from the spec: the encode step for a batch of valid
    requests in [jsonrpc/manager.py] (sections 4.2 and 4.4): an empty
    batch is itself an invalid request; otherwise nothing when no
    response was produced, and the sequence of responses when some
    were. *)
Definition process_batch (reqs : list RequestModel) : M Output :=
  match reqs with
  | [] => mret (Single (mkResponse IdNull V2 (Error InvalidRequest)))
  | _ =>
      rs ← dispatch_all reqs;
      match rs with
      | [] => mret NoOutput
      | _ => mret (Batch rs)
      end
  end.

End Dispatch.

End Manager.

(** ** Sequences of registry operations *)

(** The operations a client of the registry performs between two lookups. *)
Inductive operation : Type :=
| OpRegister (key : string) (v : value)
| OpUnregister (key : string)
| OpSetFallback (f : value)
| OpLookup (key : string)
| OpLength.

(** Whether an operation registers or unregisters [name]. *)
Definition rebinds (name : string) (o : operation) : bool :=
  match o with
  | OpRegister key _ | OpUnregister key => String.eqb key name
  | _ => false
  end.

(** The state an operation leaves, whether it returned or raised. *)
Definition perform (o : operation) (self : Dispatcher) : Dispatcher :=
  match o with
  | OpRegister key v => state_after (__setitem__ key v) self
  | OpUnregister key => state_after (__delitem__ key) self
  | OpSetFallback f => state_after (fallback_method f) self
  | OpLookup key => state_after (__getitem__ key) self
  | OpLength => state_after __len__ self
  end.

Definition perform_all (ops : list operation) (self : Dispatcher) : Dispatcher :=
  foldl (λ s o, perform o s) self ops.

(** ** Sample handlers and registries *)

(** Function bodies for the examples: body 1 returns the [_method] keyword
    it was called with ([None] without one), body 2 raises, every other
    body returns the number of its positional arguments. *)
Definition sample_code (code : nat) (args : list value) (kw : kwargs) : M value :=
  match code with
  | 1 => mret (default VNone (kw !! "_method"))
  | 2 => raise (Exception "boom")
  | _ => mret (VInt (Z.of_nat (length args)))
  end.

Definition catch_all : value := VFunction "catch_all" 1.
Definition failing : value := VFunction "failing" 2.
Definition count_args : value := VFunction "count_args" 3.

Definition sample_dispatcher : Dispatcher :=
  mkDispatcher {["count" := count_args; "fail" := failing]} catch_all.

(** ** Registering the methods of objects and classes *)

(** An object handed to [add_object]: the [__name__] of its class, and
    what [build_method_map] sees of the object. *)
Record instance : Type := mkInstance {
  class_name : string;
  contents : prototype
}.

(** A class handed to [add_class]: its [__name__], and what calling it
    without arguments does: the constructor may return an instance or
    raise, and may touch the dispatcher it closes over. *)
Record class : Type := mkClass {
  cls_name : string;
  construct : M instance
}.

Section Namespaces.

(** [str.lower] *)
Variable lower : string → string.

Definition add_class (cls : class) : M unit :=
  let prefix := lower (cls_name cls) ++ "." in
  obj ← construct cls;
  build_method_map (contents obj) prefix.

Definition add_object (obj : instance) : M unit :=
  let prefix := lower (class_name obj) ++ "." in
  build_method_map (contents obj) prefix.

End Namespaces.

(** ** Methods inherited from [MutableMapping] *)

(** [key in self], as [collections.abc.Mapping] defines it on top of
    [__getitem__]: [self[key]] is tried, and a [KeyError] means [False]. *)
Definition __contains__ (key : string) : M bool :=
  try_except
    (_ ← __getitem__ key; mret true)
    (λ err,
       match err with
       | KeyError _ => mret false
       | _ => raise err
       end).

(** [self.get(key, default)], as [collections.abc.Mapping] defines it on
    top of [__getitem__]: a [KeyError] means [default]. *)
Definition get (key : string) (default : value) : M value :=
  try_except
    (__getitem__ key)
    (λ err,
       match err with
       | KeyError _ => mret default
       | _ => raise err
       end).

(** ** More sample data *)

(** Lower-casing of the ASCII letters, for the examples. *)
Definition ascii_lower_char (c : Ascii.ascii) : Ascii.ascii :=
  let n := Ascii.N_of_ascii c in
  if ((65 <=? n) && (n <=? 90))%N then Ascii.ascii_of_N (n + 32) else c.

Fixpoint ascii_lower (s : string) : string :=
  match s with
  | EmptyString => EmptyString
  | String c rest => String (ascii_lower_char c) (ascii_lower rest)
  end.

(** Function bodies in which the body of [self.add_method] is [add_method]
    itself, for the call the decorator form makes: one positional argument
    and the keyword [name]. *)
Definition decorating_code (code : nat) (args : list value) (kw : kwargs) : M value :=
  if decide (code = add_method_code) then
    match args, kw !! "name" with
    | [f], Some (VStr n) => add_method f (Some n)
    | [f], Some VNone => add_method f None
    | _, _ => raise (TypeError "add_method() got unexpected arguments")
    end
  else sample_code code args kw.

(** The attributes of an object of a class [Math]: reading [broken]
    raises when [safe] is false. *)
Definition math_attributes (safe : bool) : list (string * M value) :=
  [("__init__", mret (VFunction "__init__" 4));
   ("_helper", mret (VFunction "_helper" 5));
   ("add", mret (VFunction "add" 6));
   ("broken", if safe then mret VNone else raise (Exception "unreadable"));
   ("precision", mret (VInt 10))].

Definition sample_object : instance :=
  mkInstance "Math" (PObject (math_attributes true)).

(** An object that tests false although it can be called, such as a
    callable collection that is empty. *)
Definition empty_callable : value := VCallable 3 false.

(** * Properties *)

(** Unfolds the monad's plumbing so that a method body becomes a plain
    function of the instance. *)
Ltac unfold_M :=
  cbv beta iota zeta delta
    [mbind M_bind bind mret M_ret ret raise try_except
     get_method_map get_fallback set_method_map set_fallback
     dict_getitem dict_delitem result state_after] in *.

(** ** Running the methods *)

Lemma getitem_hit d key v :
  method_map d !! key = Some v → __getitem__ key d = (Returned v, d).
Proof. intros Hv. unfold __getitem__. unfold_M. by rewrite Hv. Qed.

Lemma getitem_miss_fallback d key :
  method_map d !! key = None →
  truthy (fallback d) = true → callable (fallback d) = true →
  __getitem__ key d =
    (Returned (VPartial (fallback d) [] {["_method" := VStr key]}), d).
Proof.
  intros Hv Ht Hc. unfold __getitem__, functools_partial. unfold_M.
  by rewrite Hv, Ht, Hc.
Qed.

Lemma getitem_miss d key :
  method_map d !! key = None → truthy (fallback d) = false →
  __getitem__ key d = (Raised (KeyError key), d).
Proof. intros Hv Hf. unfold __getitem__. unfold_M. by rewrite Hv, Hf. Qed.

Lemma getitem_state d key : state_after (__getitem__ key) d = d.
Proof.
  unfold __getitem__, functools_partial. unfold_M.
  destruct (method_map d !! key) as [v|]; [done|].
  destruct (truthy (fallback d)); [|done].
  by destruct (callable (fallback d)).
Qed.

Lemma setitem_run d key v :
  __setitem__ key v d =
    (Returned tt, mkDispatcher (<[key := v]> (method_map d)) (fallback d)).
Proof. done. Qed.

Lemma delitem_hit d key v :
  method_map d !! key = Some v →
  __delitem__ key d =
    (Returned tt, mkDispatcher (delete key (method_map d)) (fallback d)).
Proof. intros Hv. unfold __delitem__. unfold_M. by rewrite Hv. Qed.

Lemma delitem_miss d key :
  method_map d !! key = None → __delitem__ key d = (Raised (KeyError key), d).
Proof. intros Hv. unfold __delitem__. unfold_M. by rewrite Hv. Qed.

Lemma fallback_method_run d f :
  fallback_method f d = (Returned f, mkDispatcher (method_map d) f).
Proof. done. Qed.

Lemma add_method_named d f name :
  truthy f = true → truthy_str name = true →
  add_method f (Some name) d =
    (Returned f, mkDispatcher (<[name := f]> (method_map d)) (fallback d)).
Proof.
  intros Hf Hn. unfold add_method, truthy_name. unfold_M. by rewrite Hf, Hn.
Qed.


(** ** Operations that leave a binding alone *)

Lemma setitem_state d key v :
  state_after (__setitem__ key v) d =
    mkDispatcher (<[key := v]> (method_map d)) (fallback d).
Proof. done. Qed.

Lemma delitem_state d key :
  state_after (__delitem__ key) d =
    match method_map d !! key with
    | Some _ => mkDispatcher (delete key (method_map d)) (fallback d)
    | None => d
    end.
Proof.
  unfold state_after. destruct (method_map d !! key) as [v|] eqn:Hv.
  - by rewrite (delitem_hit _ _ _ Hv).
  - by rewrite (delitem_miss _ _ Hv).
Qed.

Lemma perform_other name o d :
  rebinds name o = false →
  method_map (perform o d) !! name = method_map d !! name.
Proof.
  destruct o as [key v|key|f|key|]; cbn; intros Hk.
  - apply String.eqb_neq in Hk. rewrite setitem_state. cbn.
    by rewrite lookup_insert_ne.
  - apply String.eqb_neq in Hk. rewrite delitem_state.
    destruct (method_map d !! key); [|done]. by apply lookup_delete_ne.
  - done.
  - by rewrite getitem_state.
  - done.
Qed.

Lemma perform_all_other name ops d :
  forallb (λ o, negb (rebinds name o)) ops = true →
  method_map (perform_all ops d) !! name = method_map d !! name.
Proof.
  revert d. induction ops as [|o ops IH]; intros d Hops; [done|].
  cbn in Hops. apply andb_prop in Hops as [Ho Hops].
  apply negb_true_iff in Ho. cbn.
  unfold perform_all in IH. by rewrite IH, perform_other.
Qed.

(** ** Claims about lookup, registration and removal *)

(** C1. In every dispatcher state in which [name] is bound to [handler],
    [__getitem__] returns that very object, so that calling what it returns
    does whatever calling [handler] does, on any arguments and in any
    state; and after [handler] has been registered under [name] and any
    operations that neither register nor unregister [name] have been
    performed, [__getitem__] returns [handler] itself. *)
Theorem lookup_registered
    (run_code : nat → list value → kwargs → M value)
    (d d0 : Dispatcher) (name : string) (handler : value)
    (ops : list operation) :
  (method_map d !! name = Some handler →
   ∃ c, __getitem__ name d = (Returned c, d) ∧ c = handler ∧
        ∀ args kw s, call run_code c args kw s = call run_code handler args kw s) ∧
  (forallb (λ o, negb (rebinds name o)) ops = true →
   let d' := perform_all ops (state_after (__setitem__ name handler) d0) in
   __getitem__ name d' = (Returned handler, d')).
Proof.
  split.
  - intros Hd. exists handler. by rewrite (getitem_hit _ _ _ Hd).
  - intros Hops. cbn zeta. apply getitem_hit.
    rewrite (perform_all_other _ _ _ Hops), setitem_state. cbn.
    apply lookup_insert_eq.
Qed.

Lemma lookup_registered_witness :
  (∃ c, __getitem__ "count" sample_dispatcher = (Returned c, sample_dispatcher) ∧
        c = count_args ∧
        ∀ args kw s, call sample_code c args kw s = call sample_code count_args args kw s) ∧
  (let d' := perform_all [OpRegister "other" failing; OpUnregister "fail";
                          OpSetFallback VNone; OpLookup "count"; OpLength]
               (state_after (__setitem__ "count" count_args) sample_dispatcher) in
   __getitem__ "count" d' = (Returned count_args, d')).
Proof.
  destruct (lookup_registered sample_code sample_dispatcher sample_dispatcher
              "count" count_args
              [OpRegister "other" failing; OpUnregister "fail";
               OpSetFallback VNone; OpLookup "count"; OpLength]) as [H1 H2].
  split; [apply H1 | apply H2]; reflexivity.
Defined.

(** C4. Registration is last-write-wins: after [name] is registered for [f]
    and then for [g], both registrations having returned without an error,
    [__getitem__] returns [g]; this holds for item assignment with any
    objects, and for [add_method] with a non-empty name and objects that
    test true, which is what [add_method] checks before it registers. *)
Theorem register_last_write_wins (d : Dispatcher) (name : string) (f g : value) :
  (let d1 := state_after (__setitem__ name f) d in
   let d2 := state_after (__setitem__ name g) d1 in
   result (__setitem__ name f) d = Returned tt ∧
   result (__setitem__ name g) d1 = Returned tt ∧
   __getitem__ name d2 = (Returned g, d2)) ∧
  (truthy f = true → truthy g = true → truthy_str name = true →
   let d1 := state_after (add_method f (Some name)) d in
   let d2 := state_after (add_method g (Some name)) d1 in
   result (add_method f (Some name)) d = Returned f ∧
   result (add_method g (Some name)) d1 = Returned g ∧
   __getitem__ name d2 = (Returned g, d2)).
Proof.
  split; [|intros Hf Hg Hn]; cbn zeta.
  - repeat split. apply getitem_hit. rewrite !setitem_state. cbn.
    apply lookup_insert_eq.
  - unfold result, state_after.
    rewrite (add_method_named d f name Hf Hn). cbn [fst snd].
    rewrite (add_method_named _ g name Hg Hn). cbn [fst snd].
    repeat split. apply getitem_hit. cbn. apply lookup_insert_eq.
Qed.

Lemma register_last_write_wins_witness :
  (let d1 := state_after (__setitem__ "count" failing) sample_dispatcher in
   let d2 := state_after (__setitem__ "count" catch_all) d1 in
   result (__setitem__ "count" failing) sample_dispatcher = Returned tt ∧
   result (__setitem__ "count" catch_all) d1 = Returned tt ∧
   __getitem__ "count" d2 = (Returned catch_all, d2)) ∧
  (let d1 := state_after (add_method failing (Some "count")) sample_dispatcher in
   let d2 := state_after (add_method catch_all (Some "count")) d1 in
   result (add_method failing (Some "count")) sample_dispatcher = Returned failing ∧
   result (add_method catch_all (Some "count")) d1 = Returned catch_all ∧
   __getitem__ "count" d2 = (Returned catch_all, d2)).
Proof.
  destruct (register_last_write_wins sample_dispatcher "count" failing catch_all)
    as [H1 H2].
  split; [apply H1 | apply H2; reflexivity].
Defined.

(** C5. [__delitem__] removes the binding of a registered name, so that a
    following lookup, when no fallback is set, raises [KeyError]; and it
    raises [KeyError], changing nothing, whenever the name is not
    registered. *)
Theorem unregister_removes_or_raises (d : Dispatcher) (name : string) :
  (is_Some (method_map d !! name) →
   let d' := state_after (__delitem__ name) d in
   result (__delitem__ name) d = Returned tt ∧
   method_map d' !! name = None ∧
   (∀ other, other ≠ name → method_map d' !! other = method_map d !! other) ∧
   fallback d' = fallback d ∧
   (truthy (fallback d) = false →
    __getitem__ name d' = (Raised (KeyError name), d'))) ∧
  (method_map d !! name = None →
   __delitem__ name d = (Raised (KeyError name), d)).
Proof.
  split.
  - intros [v Hv]. cbn zeta. unfold result, state_after.
    rewrite (delitem_hit _ _ _ Hv). cbn [fst snd method_map fallback].
    split; [done|]. split; [apply lookup_delete_eq|].
    split; [intros other Hne; by apply lookup_delete_ne|].
    split; [done|]. intros Hf. apply getitem_miss; cbn; [|done].
    apply lookup_delete_eq.
  - apply delitem_miss.
Qed.

Lemma unregister_removes_or_raises_witness :
  (let d := mkDispatcher {["count" := count_args]} VNone in
   let d' := state_after (__delitem__ "count") d in
   result (__delitem__ "count") d = Returned tt ∧
   method_map d' !! "count" = None ∧
   (∀ other, other ≠ "count" → method_map d' !! other = method_map d !! other) ∧
   fallback d' = fallback d ∧
   (truthy (fallback d) = false →
    __getitem__ "count" d' = (Raised (KeyError "count"), d'))) ∧
  __delitem__ "absent" sample_dispatcher = (Raised (KeyError "absent"), sample_dispatcher).
Proof.
  split.
  - apply (unregister_removes_or_raises (mkDispatcher {["count" := count_args]} VNone)
             "count").
    exists count_args. reflexivity.
  - apply (unregister_removes_or_raises sample_dispatcher "absent"). reflexivity.
Defined.

(** C7. [fallback_method(None)] disables the fallback: in the state it
    leaves, which has the same registered names as before, the lookup of
    any unregistered name raises [KeyError] instead of returning an
    adapter. *)
Theorem fallback_none_disables (d : Dispatcher) (name : string) :
  let d' := state_after (fallback_method VNone) d in
  method_map d' = method_map d ∧
  (method_map d !! name = None →
   __getitem__ name d' = (Raised (KeyError name), d')).
Proof.
  cbn zeta. unfold state_after. rewrite fallback_method_run. cbn [snd].
  split; [done|]. intros Hn. by apply getitem_miss.
Qed.

Lemma fallback_none_disables_witness :
  let d' := state_after (fallback_method VNone) sample_dispatcher in
  method_map d' = method_map sample_dispatcher ∧
  __getitem__ "absent" d' = (Raised (KeyError "absent"), d').
Proof.
  destruct (fallback_none_disables sample_dispatcher "absent") as [H1 H2].
  split; [exact H1 | apply H2; reflexivity].
Defined.

(** C8. [__getitem__] never changes the dispatcher: whether it returns a
    registered handler, returns a fallback adapter or raises, the instance
    it leaves is the one it found, with the same registered names, the
    same handlers, the same length and the same fallback; in particular
    the looked-up name is registered afterwards only if it was before. *)
Theorem lookup_leaves_dispatcher_unchanged (d : Dispatcher) (name : string) :
  let d' := state_after (__getitem__ name) d in
  d' = d ∧
  dom (method_map d') = dom (method_map d) ∧
  (∀ key, method_map d' !! key = method_map d !! key) ∧
  fallback d' = fallback d ∧
  __len__ d' = __len__ d ∧
  method_map d' !! name = method_map d !! name.
Proof. cbn zeta. by rewrite getitem_state. Qed.




(** ** The fallback adapter *)

Lemma call_adapter run_code g name args kw s :
  call run_code (VPartial g [] {["_method" := VStr name]}) args kw s =
  call run_code g args (kw ∪ {["_method" := VStr name]}) s.
Proof. done. Qed.

Lemma call_adapter_fresh run_code g name args kw s :
  kw !! "_method" = None →
  call run_code (VPartial g [] {["_method" := VStr name]}) args kw s =
  call run_code g args (<["_method" := VStr name]> kw) s.
Proof. intros Hkw. by rewrite call_adapter, insert_union_singleton_r. Qed.

Lemma call_adapter_given run_code g name args kw s :
  is_Some (kw !! "_method") →
  call run_code (VPartial g [] {["_method" := VStr name]}) args kw s =
  call run_code g args kw s.
Proof.
  intros [v Hkw]. by rewrite call_adapter, (union_singleton_r _ _ _ _ Hkw).
Qed.

(** Calling a partial object of a partial object is calling the one partial
    object that holds the arguments of both, the outer keywords replacing
    the inner ones. *)
Lemma call_partial_nested run_code g pargs pkw args kw a k s :
  call run_code (VPartial (VPartial g pargs pkw) args kw) a k s =
  call run_code (VPartial g (pargs ++ args) (kw ∪ pkw)) a k s.
Proof. cbn [call]. by rewrite <- (assoc_L (++)), <- (assoc_L (∪)). Qed.

Lemma getitem_miss_inv d key a d' :
  method_map d !! key = None → __getitem__ key d = (Returned a, d') →
  callable (fallback d) = true ∧
  a = VPartial (fallback d) [] {["_method" := VStr key]} ∧ d' = d.
Proof.
  intros Hv. unfold __getitem__, functools_partial. unfold_M. rewrite Hv.
  destruct (truthy (fallback d)); [|done].
  destruct (callable (fallback d)); [|done].
  intros [= <- <-]. done.
Qed.

(** C2, as the code has it.  For a name that is not registered: when a
    fallback is set that is callable and tests true, which is what
    [if self.fallback] asks, [__getitem__] returns an adapter; invoked
    with arguments that carry no [_method] keyword of their own, the
    adapter calls the fallback with those arguments plus the missed name as
    the keyword [_method], and invoked with a [_method] keyword it calls
    the fallback with the arguments as given; when no fallback is set,
    the fallback being [None], [__getitem__] raises [KeyError] for the
    name. *)
Theorem lookup_unregistered
    (run_code : nat → list value → kwargs → M value)
    (d : Dispatcher) (name : string) :
  method_map d !! name = None →
  (truthy (fallback d) = true → callable (fallback d) = true →
   ∃ adapter, __getitem__ name d = (Returned adapter, d) ∧
     (∀ args kw s, kw !! "_method" = None →
        call run_code adapter args kw s =
        call run_code (fallback d) args (<["_method" := VStr name]> kw) s) ∧
     (∀ args kw s, is_Some (kw !! "_method") →
        call run_code adapter args kw s = call run_code (fallback d) args kw s)) ∧
  (fallback d = VNone →
   __getitem__ name d = (Raised (KeyError name), d)).
Proof.
  intros Hn. split.
  - intros Ht Hc. eexists. split; [by apply getitem_miss_fallback|]. split.
    + intros args kw s Hkw. by apply call_adapter_fresh.
    + intros args kw s Hkw. by apply call_adapter_given.
  - intros Hf. apply getitem_miss; [done|]. by rewrite Hf.
Qed.

Lemma lookup_unregistered_witness :
  (∃ adapter,
     __getitem__ "missing" sample_dispatcher = (Returned adapter, sample_dispatcher) ∧
     (∀ args kw s, kw !! "_method" = None →
        call sample_code adapter args kw s =
        call sample_code (fallback sample_dispatcher) args
          (<["_method" := VStr "missing"]> kw) s) ∧
     (∀ args kw s, is_Some (kw !! "_method") →
        call sample_code adapter args kw s =
        call sample_code (fallback sample_dispatcher) args kw s)) ∧
  __getitem__ "missing" (mkDispatcher ∅ VNone) =
    (Raised (KeyError "missing"), mkDispatcher ∅ VNone).
Proof.
  split.
  - apply (lookup_unregistered sample_code sample_dispatcher "missing");
      reflexivity.
  - apply (lookup_unregistered sample_code (mkDispatcher ∅ VNone) "missing");
      reflexivity.
Defined.

(** C2 as stated fails: with [catch_all] as the fallback and ["missing"]
    not registered, the adapter invoked with the keyword
    [_method="spoofed"] hands [catch_all] the caller's ["spoofed"], whereas
    calling [catch_all] with the original arguments plus the missed name
    as [_method] hands it ["missing"]. *)
Lemma fallback_adapter_keyword_override :
  let d := sample_dispatcher in
  let kw : kwargs := {["_method" := VStr "spoofed"]} in
  method_map d !! "missing" = None ∧
  fallback d = catch_all ∧
  ∃ adapter,
    __getitem__ "missing" d = (Returned adapter, d) ∧
    call sample_code adapter [] kw d = (Returned (VStr "spoofed"), d) ∧
    call sample_code catch_all [] (<["_method" := VStr "missing"]> kw) d =
      (Returned (VStr "missing"), d) ∧
    call sample_code adapter [] kw d ≠
      call sample_code catch_all [] (<["_method" := VStr "missing"]> kw) d.
Proof.
  cbn zeta. split; [reflexivity|]. split; [reflexivity|].
  eexists. split; [reflexivity|]. split; [reflexivity|]. split; [reflexivity|].
  vm_compute. discriminate.
Qed.

(** C10, as the code has it.  When the lookup of an unregistered name has
    returned an adapter while [g] was the fallback, and the fallback is
    then replaced (by any object, [None] included), the adapter still calls
    [g]: invoked with arguments that carry no [_method] keyword of their
    own it calls [g] with those arguments plus the missed name as
    [_method], and invoked with a [_method] keyword it calls [g] with the
    arguments as given. *)
Theorem adapter_keeps_fallback
    (run_code : nat → list value → kwargs → M value)
    (d : Dispatcher) (name : string) (g adapter replacement : value) :
  method_map d !! name = None →
  fallback d = g →
  __getitem__ name d = (Returned adapter, d) →
  let d' := state_after (fallback_method replacement) d in
  fallback d' = replacement ∧
  (∀ args kw, kw !! "_method" = None →
     call run_code adapter args kw d' =
     call run_code g args (<["_method" := VStr name]> kw) d') ∧
  (∀ args kw, is_Some (kw !! "_method") →
     call run_code adapter args kw d' = call run_code g args kw d').
Proof.
  intros Hn <- Hget. cbn zeta.
  destruct (getitem_miss_inv _ _ _ _ Hn Hget) as (_ & -> & _).
  split; [done|]. split.
  - intros args kw Hkw. by apply call_adapter_fresh.
  - intros args kw Hkw. by apply call_adapter_given.
Qed.

Lemma adapter_keeps_fallback_witness :
  let adapter := VPartial catch_all [] {["_method" := VStr "missing"]} in
  let d' := state_after (fallback_method VNone) sample_dispatcher in
  fallback d' = VNone ∧
  (∀ args kw, kw !! "_method" = None →
     call sample_code adapter args kw d' =
     call sample_code catch_all args (<["_method" := VStr "missing"]> kw) d') ∧
  (∀ args kw, is_Some (kw !! "_method") →
     call sample_code adapter args kw d' = call sample_code catch_all args kw d').
Proof.
  apply (adapter_keeps_fallback sample_code sample_dispatcher "missing" catch_all);
    reflexivity.
Defined.

(** C10 as stated fails: the adapter returned for ["missing"] while
    [catch_all] was the fallback, invoked after the fallback has been set
    to [None] with the keyword [_method="spoofed"], hands [catch_all] the
    caller's ["spoofed"] and not the missed name. *)
Lemma captured_adapter_keyword_override :
  let d := sample_dispatcher in
  let d' := state_after (fallback_method VNone) d in
  let kw : kwargs := {["_method" := VStr "spoofed"]} in
  fallback d = catch_all ∧
  fallback d' = VNone ∧
  ∃ adapter,
    __getitem__ "missing" d = (Returned adapter, d) ∧
    call sample_code adapter [] kw d' = (Returned (VStr "spoofed"), d') ∧
    call sample_code catch_all [] (<["_method" := VStr "missing"]> kw) d' =
      (Returned (VStr "missing"), d') ∧
    call sample_code adapter [] kw d' ≠
      call sample_code catch_all [] (<["_method" := VStr "missing"]> kw) d'.
Proof.
  cbn zeta. split; [reflexivity|]. split; [reflexivity|].
  eexists. split; [reflexivity|]. split; [reflexivity|]. split; [reflexivity|].
  vm_compute. discriminate.
Qed.

(** ** Notifications *)

Section ManagerProperties.

Import Manager.

Variable run_code : nat → list value → kwargs → M value.

Lemma resolve_returns name d :
  ∃ r, resolve name d = (Returned r, d).
Proof.
  unfold resolve. unfold_M.
  pose proof (getitem_state d name) as Hs. unfold state_after in Hs.
  destruct (__getitem__ name d) as [[f|e] d'] eqn:Hget; cbn in Hs; subst d'.
  - by eexists.
  - destruct e; by eexists.
Qed.

Lemma invoke_returns f p d :
  ∃ pl d', invoke run_code f p d = (Returned pl, d').
Proof.
  unfold invoke. unfold_M.
  destruct p as [|args|kw];
    match goal with
    | |- context [call run_code f ?a ?k d] =>
        destruct (call run_code f a k d) as [[v|e] d']
    end;
    try (by eexists _, _); destruct e; by eexists _, _.
Qed.

(** Dispatch never raises: it returns the response built from the payload
    and the request's identifier, or nothing when the identifier is
    absent. *)
Lemma dispatch_returns req d :
  ∃ pl d',
    dispatch run_code req d =
      (Returned (match id req with
                 | None => None
                 | Some i => Some (mkResponse i (version req) pl)
                 end), d').
Proof.
  unfold dispatch.
  destruct (resolve_returns (method req) d) as [r Hr].
  destruct r as [e|f].
  - exists (Error e), d. unfold_M. rewrite Hr. by destruct (id req).
  - destruct (invoke_returns f (params req) d) as (pl & d' & Hi).
    exists pl, d'. unfold_M. rewrite Hr, Hi. by destruct (id req).
Qed.

(** C3. A request whose identifier is absent produces no response:
    whatever the registry holds and whatever the handler does, raising
    included, dispatch returns without a [ResponseModel] and processing
    the request as a single request emits no output. *)
Theorem notification_produces_no_response (req : RequestModel) (d : Dispatcher) :
  id req = None →
  ∃ d', dispatch run_code req d = (Returned None, d') ∧
        process_single run_code req d = (Returned NoOutput, d').
Proof.
  intros Hid. destruct (dispatch_returns req d) as (pl & d' & Hd).
  rewrite Hid in Hd. exists d'. split; [done|].
  unfold process_single. unfold_M. by rewrite Hd.
Qed.

End ManagerProperties.

Lemma notification_produces_no_response_witness :
  ∃ d', Manager.dispatch sample_code
          (Manager.mkRequest "fail" Manager.ParamsAbsent None Manager.V2)
          sample_dispatcher = (Returned None, d') ∧
        Manager.process_single sample_code
          (Manager.mkRequest "fail" Manager.ParamsAbsent None Manager.V2)
          sample_dispatcher = (Returned Manager.NoOutput, d').
Proof.
  apply (notification_produces_no_response sample_code
           (Manager.mkRequest "fail" Manager.ParamsAbsent None Manager.V2)
           sample_dispatcher).
  reflexivity.
Defined.

(** The same request with an identifier reports the handler's exception. *)
Example failing_call_with_identifier :
  Manager.process_single sample_code
    (Manager.mkRequest "fail" Manager.ParamsAbsent (Some (Manager.IdInt 5)) Manager.V2)
    sample_dispatcher =
  (Returned (Manager.Single
     (Manager.mkResponse (Manager.IdInt 5) Manager.V2
        (Manager.Error (Manager.ServerError "boom")))), sample_dispatcher).
Proof. reflexivity. Qed.

(** ** Bulk registration *)

Lemma append_assoc (s1 s2 s3 : string) : (s1 ++ s2) ++ s3 = s1 ++ (s2 ++ s3).
Proof.
  induction s1 as [|a s1 IH]; [done|].
  change (String a ((s1 ++ s2) ++ s3) = String a (s1 ++ (s2 ++ s3))).
  by rewrite IH.
Qed.

(** The registration loop of [build_method_map] never raises; it leaves
    the fallback alone and folds the callable entries into the method map,
    in iteration order. *)
Lemma build_loop_run prefix (items : list (string * value)) d :
  for_each items
    (λ '(attr, method),
       if callable method then __setitem__ (prefix ++ attr) method else mret tt) d =
  (Returned tt,
   mkDispatcher
     (foldl (λ m p, if callable p.2 then <[prefix ++ p.1 := p.2]> m else m)
        (method_map d) items)
     (fallback d)).
Proof.
  revert d. induction items as [|[attr method] items IH]; intros d.
  - by destruct d.
  - cbn [for_each foldl fst snd]. unfold_M.
    destruct (callable method).
    + rewrite setitem_run, IH. done.
    + rewrite IH. done.
Qed.

Lemma fold_items_other prefix (items : list (string * value)) (m : gmap string value) k :
  (∀ n v, (n, v) ∈ items → callable v = true → k ≠ prefix ++ n) →
  foldl (λ m p, if callable p.2 then <[prefix ++ p.1 := p.2]> m else m) m items !! k
  = m !! k.
Proof.
  revert m. induction items as [|[n v] items IH]; intros m Hk; [done|].
  cbn [foldl fst snd]. rewrite IH.
  - destruct (callable v) eqn:Hc; [|done].
    rewrite lookup_insert_ne; [done|]. intros Heq.
    by apply (Hk n v); [left| |].
  - intros n' v' Hin. apply Hk. by right.
Qed.

Lemma fold_items_entry prefix (items : list (string * value)) (m : gmap string value) n v :
  NoDup items.*1 → (n, v) ∈ items → callable v = true →
  foldl (λ m p, if callable p.2 then <[prefix ++ p.1 := p.2]> m else m) m items
    !! (prefix ++ n) = Some v.
Proof.
  revert m. induction items as [|[n' v'] items IH]; intros m Hnd Hin Hc.
  - by apply elem_of_nil in Hin.
  - cbn in Hnd. apply NoDup_cons in Hnd as [Hfresh Hnd].
    apply elem_of_cons in Hin as [[= <- <-]|Hin]; cbn [foldl fst snd].
    + rewrite Hc, fold_items_other; [apply lookup_insert_eq|].
      intros n2 v2 Hin2 _ Heq. apply (inj _) in Heq as <-.
      apply Hfresh. apply list_elem_of_fmap. by exists (n, v2).
    + by apply IH.
Qed.

(** A dict holds one value per key. *)
Lemma items_unique (items : list (string * value)) n v1 v2 :
  NoDup items.*1 → (n, v1) ∈ items → (n, v2) ∈ items → v1 = v2.
Proof.
  induction items as [|[n' v'] items IH]; intros Hnd H1 H2.
  - by apply elem_of_nil in H1.
  - cbn in Hnd. apply NoDup_cons in Hnd as [Hfresh Hnd].
    apply elem_of_cons in H1 as [[= -> ->]|H1];
      apply elem_of_cons in H2 as [[= <-]|H2].
    + done.
    + destruct Hfresh. apply list_elem_of_fmap. by exists (n', v2).
    + subst. destruct Hfresh. apply list_elem_of_fmap. by exists (n, v1).
    + by apply IH.
Qed.

Lemma add_dict_run (items : list (string * value)) prefix d :
  add_dict (PDict items) prefix d =
  (Returned tt,
   mkDispatcher
     (foldl (λ m p,
               if callable p.2
               then <[(if truthy_str prefix then prefix ++ "." else prefix) ++ p.1 := p.2]> m
               else m)
        (method_map d) items)
     (fallback d)).
Proof. unfold add_dict, build_method_map. apply build_loop_run. Qed.

(** The key under which [add_dict] registers the entry named [n]. *)
Lemma add_dict_key prefix n :
  (if truthy_str prefix then prefix ++ "." else prefix) ++ n =
  if String.eqb prefix "" then n else prefix ++ "." ++ n.
Proof.
  unfold truthy_str. destruct (String.eqb_spec prefix "") as [->|Hne]; cbn [negb].
  - done.
  - apply append_assoc.
Qed.

(** C6, as the code has it.  For a dict that is not the registry's own
    dictionary, given through its items (keys distinct), and a prefix
    string, [add_dict] returns without an error and registers exactly the
    entries whose value is callable, each under [prefix + "." + name] when
    the prefix is non-empty and under [name] when it is empty: every
    callable entry is bound under its key, the key of a non-callable entry
    keeps the binding (or absence) it had, as does every key that is not
    the key of a callable entry, and the fallback is unchanged. *)
Theorem add_dict_registers_callables
    (d : Dispatcher) (items : list (string * value)) (prefix : string) :
  NoDup items.*1 →
  let key n := if String.eqb prefix "" then n else prefix ++ "." ++ n in
  let d' := state_after (add_dict (PDict items) prefix) d in
  result (add_dict (PDict items) prefix) d = Returned tt ∧
  (∀ n v, (n, v) ∈ items → callable v = true → method_map d' !! key n = Some v) ∧
  (∀ n v, (n, v) ∈ items → callable v = false →
     method_map d' !! key n = method_map d !! key n) ∧
  (∀ k, (∀ n v, (n, v) ∈ items → callable v = true → k ≠ key n) →
     method_map d' !! k = method_map d !! k) ∧
  fallback d' = fallback d.
Proof.
  intros Hnd. cbn zeta. unfold result, state_after. rewrite add_dict_run.
  cbn [fst snd method_map fallback].
  split; [done|]. split; [|split; [|split; [|done]]].
  - intros n v Hin Hc. rewrite <- add_dict_key. by apply fold_items_entry.
  - intros n v Hin Hc. rewrite <- add_dict_key. apply fold_items_other.
    intros n2 v2 Hin2 Hc2 Heq. apply (inj _) in Heq as <-.
    rewrite (items_unique _ _ _ _ Hnd Hin Hin2) in Hc. congruence.
  - intros k Hk. apply fold_items_other.
    intros n v Hin Hc. rewrite add_dict_key. by apply (Hk n v).
Qed.

Lemma add_dict_registers_callables_witness :
  let items := [("sum", count_args); ("version", VStr "1.13.0"); ("fail", failing)] in
  let key n := if String.eqb "calc" "" then n else "calc" ++ "." ++ n in
  let d := sample_dispatcher in
  let d' := state_after (add_dict (PDict items) "calc") d in
  result (add_dict (PDict items) "calc") d = Returned tt ∧
  (∀ n v, (n, v) ∈ items → callable v = true → method_map d' !! key n = Some v) ∧
  (∀ n v, (n, v) ∈ items → callable v = false →
     method_map d' !! key n = method_map d !! key n) ∧
  (∀ k, (∀ n v, (n, v) ∈ items → callable v = true → k ≠ key n) →
     method_map d' !! k = method_map d !! k) ∧
  fallback d' = fallback d.
Proof.
  apply (add_dict_registers_callables sample_dispatcher
           [("sum", count_args); ("version", VStr "1.13.0"); ("fail", failing)]
           "calc").
  vm_compute. by apply (bool_decide_unpack _).
Defined.

(** C6 as stated fails: handed the registry's own dictionary, which binds
    ["count"] and ["fail"] to callables, with the prefix ["p"], [add_dict]
    registers ["p.count"] and then raises [RuntimeError], because the
    dictionary it iterates over has grown: the callable entry ["fail"] is
    not registered under ["p.fail"], and the call ends in an error. *)
Lemma add_dict_own_method_map :
  let d := sample_dispatcher in
  let d' := state_after (add_dict (PMethodMap ["count"; "fail"]) "p") d in
  method_map d = {["count" := count_args; "fail" := failing]} ∧
  callable count_args = true ∧
  callable failing = true ∧
  result (add_dict (PMethodMap ["count"; "fail"]) "p") d =
    Raised (RuntimeError "dictionary changed size during iteration") ∧
  method_map d' !! "p.count" = Some count_args ∧
  method_map d' !! "p.fail" = None.
Proof. by repeat split. Qed.

Example add_dict_sample :
  method_map
    (state_after
       (add_dict (PDict [("sum", count_args); ("version", VStr "1.13.0")]) "calc")
       (mkDispatcher ∅ VNone))
  = {["calc.sum" := count_args]}.
Proof. reflexivity. Qed.

Example add_dict_sample_no_prefix :
  method_map
    (state_after
       (add_dict (PDict [("sum", count_args); ("version", VStr "1.13.0")]) "")
       (mkDispatcher ∅ VNone))
  = {["sum" := count_args]}.
Proof. reflexivity. Qed.

(** * Further properties of the dispatcher *)

(** ** Construction *)

Lemma build_method_map_dict (items : list (string * value)) prefix d :
  build_method_map (PDict items) prefix d =
  (Returned tt,
   mkDispatcher
     (foldl (λ m p, if callable p.2 then <[prefix ++ p.1 := p.2]> m else m)
        (method_map d) items)
     (fallback d)).
Proof. unfold build_method_map. apply build_loop_run. Qed.

Lemma init_run proto d0 :
  __init__ proto d0 =
  match proto with
  | Some p => build_method_map p "" (mkDispatcher ∅ VNone)
  | None => (Returned tt, mkDispatcher ∅ VNone)
  end.
Proof. by destruct proto. Qed.

(** A dispatcher built from a dict does not depend on what the instance
    held before: no fallback is set, every callable entry is found under
    its own name, and the lookup of any other name, the names of the
    non-callable entries included, raises [KeyError]; built without a
    prototype it is empty. *)
Theorem init_from_dict (d0 : Dispatcher) (items : list (string * value)) :
  NoDup items.*1 →
  let d := state_after (__init__ (Some (PDict items))) d0 in
  result (__init__ (Some (PDict items))) d0 = Returned tt ∧
  fallback d = VNone ∧
  (∀ n v, (n, v) ∈ items → callable v = true → __getitem__ n d = (Returned v, d)) ∧
  (∀ n, (∀ v, (n, v) ∈ items → callable v = false) →
        __getitem__ n d = (Raised (KeyError n), d)) ∧
  __init__ None d0 = (Returned tt, mkDispatcher ∅ VNone).
Proof.
  intros Hnd. cbn zeta. unfold result, state_after.
  rewrite !init_run, build_method_map_dict. cbn [fst snd method_map fallback].
  split; [done|]. split; [done|]. split; [|split; [|done]].
  - intros n v Hin Hc. apply getitem_hit. cbn [method_map].
    by apply (fold_items_entry "" items ∅ n v).
  - intros n Hn. apply getitem_miss; [|done]. cbn [method_map].
    rewrite (fold_items_other "" items ∅ n); [done|].
    intros n' v' Hin Hc ->. specialize (Hn v' Hin). congruence.
Qed.

Lemma init_from_dict_witness :
  let items := [("sum", count_args); ("version", VStr "1.13.0")] in
  let d := state_after (__init__ (Some (PDict items))) sample_dispatcher in
  result (__init__ (Some (PDict items))) sample_dispatcher = Returned tt ∧
  fallback d = VNone ∧
  (∀ n v, (n, v) ∈ items → callable v = true → __getitem__ n d = (Returned v, d)) ∧
  (∀ n, (∀ v, (n, v) ∈ items → callable v = false) →
        __getitem__ n d = (Raised (KeyError n), d)) ∧
  __init__ None sample_dispatcher = (Returned tt, mkDispatcher ∅ VNone).
Proof.
  apply (init_from_dict sample_dispatcher
           [("sum", count_args); ("version", VStr "1.13.0")]).
  vm_compute. by apply (bool_decide_unpack _).
Defined.

(** ** Length, removal and order of registration *)

(** [len] counts the registered names: binding a new name adds one,
    rebinding a registered name adds nothing, removing a registered name
    takes one away, and a removal that fails leaves the length. *)
Theorem len_counts_names (d : Dispatcher) (key : string) (v : value) :
  __len__ d = (Returned (size (method_map d)), d) ∧
  result __len__ (state_after (__setitem__ key v) d) =
    Returned (match method_map d !! key with
              | Some _ => size (method_map d)
              | None => S (size (method_map d))
              end) ∧
  result __len__ (state_after (__delitem__ key) d) =
    Returned (match method_map d !! key with
              | Some _ => pred (size (method_map d))
              | None => size (method_map d)
              end).
Proof.
  split; [done|]. split.
  - rewrite setitem_state. unfold result, __len__. unfold_M.
    cbn [fst method_map]. rewrite map_size_insert.
    by destruct (method_map d !! key).
  - rewrite delitem_state.
    destruct (method_map d !! key) eqn:Hk; [|done].
    unfold result, __len__. unfold_M. cbn [fst method_map].
    by rewrite map_size_delete, Hk.
Qed.

(** Registering a name that was not registered and then removing it gives
    back the dispatcher as it was. *)
Theorem register_then_unregister (d : Dispatcher) (key : string) (v : value) :
  method_map d !! key = None →
  __delitem__ key (state_after (__setitem__ key v) d) = (Returned tt, d).
Proof.
  intros Hk. rewrite setitem_state.
  rewrite (delitem_hit _ key v); [|apply lookup_insert_eq].
  cbn [method_map fallback]. rewrite delete_insert_id; [|done].
  by destruct d.
Qed.

Lemma register_then_unregister_witness :
  __delitem__ "new" (state_after (__setitem__ "new" failing) sample_dispatcher) =
  (Returned tt, sample_dispatcher).
Proof.
  apply (register_then_unregister sample_dispatcher "new" failing). reflexivity.
Defined.

(** Registrations under two different names can be made in either order:
    every lookup and the length come out the same. *)
Theorem registrations_commute
    (d : Dispatcher) (k1 k2 : string) (v1 v2 : value) (key : string) :
  k1 ≠ k2 →
  let a := state_after (__setitem__ k2 v2) (state_after (__setitem__ k1 v1) d) in
  let b := state_after (__setitem__ k1 v1) (state_after (__setitem__ k2 v2) d) in
  result (__getitem__ key) a = result (__getitem__ key) b ∧
  result __len__ a = result __len__ b.
Proof.
  intros Hne. cbn zeta. rewrite !setitem_state. cbn [method_map fallback].
  by rewrite (insert_insert_ne _ k2 k1) by done.
Qed.

Lemma registrations_commute_witness :
  let a := state_after (__setitem__ "b" failing)
             (state_after (__setitem__ "a" count_args) sample_dispatcher) in
  let b := state_after (__setitem__ "a" count_args)
             (state_after (__setitem__ "b" failing) sample_dispatcher) in
  result (__getitem__ "a") a = result (__getitem__ "a") b ∧
  result __len__ a = result __len__ b.
Proof.
  apply (registrations_commute sample_dispatcher "a" "b" count_args failing "a").
  discriminate.
Defined.

(** ** Edge cases of [add_method] and of the fallback *)

(** Without a usable name, [add_method] needs the [__name__] of its
    argument: for an object that has none ([None], a number, a string, a
    partial object) it raises [AttributeError] and registers nothing. *)
Theorem add_method_without_name
    (d : Dispatcher) (f : value) (name : option string) :
  truthy_name name = false →
  (∀ fname code, f ≠ VFunction fname code) →
  add_method f name d = (Raised (AttributeError "__name__"), d).
Proof.
  intros Hn Hf. unfold add_method. rewrite Hn. cbn [andb].
  assert (getattr___name__ f = raise (AttributeError "__name__")) as Hattr.
  { destruct f; try done. by destruct (Hf name0 code). }
  destruct name as [n|]; cbn in Hn; [rewrite Hn|]; rewrite Hattr; done.
Qed.

Lemma add_method_without_name_witness :
  add_method (VPartial count_args [VInt 1] ∅) None sample_dispatcher =
  (Raised (AttributeError "__name__"), sample_dispatcher).
Proof.
  apply (add_method_without_name sample_dispatcher
           (VPartial count_args [VInt 1] ∅) None); [reflexivity|].
  intros fname code. discriminate.
Defined.

Lemma getitem_miss_not_callable d key :
  method_map d !! key = None →
  truthy (fallback d) = true → callable (fallback d) = false →
  __getitem__ key d =
    (Raised (TypeError "the first argument must be callable"), d).
Proof.
  intros Hk Ht Hc. unfold __getitem__, functools_partial. unfold_M.
  by rewrite Hk, Ht, Hc.
Qed.

(** [fallback_method] takes any object without checking it.  With a
    fallback that is true but not callable, the lookup of an unregistered
    name raises [TypeError], not [KeyError], while registered names are
    still found. *)
Theorem non_callable_fallback (d : Dispatcher) (f : value) (key : string) :
  truthy f = true → callable f = false →
  let d' := state_after (fallback_method f) d in
  fallback_method f d = (Returned f, d') ∧
  (method_map d !! key = None →
   __getitem__ key d' =
     (Raised (TypeError "the first argument must be callable"), d')) ∧
  (∀ v, method_map d !! key = Some v → __getitem__ key d' = (Returned v, d')).
Proof.
  intros Ht Hc. cbn zeta. unfold state_after. rewrite fallback_method_run.
  cbn [snd]. split; [done|]. split.
  - intros Hk. by apply getitem_miss_not_callable.
  - intros v Hk. by apply getitem_hit.
Qed.

Lemma non_callable_fallback_witness :
  let d' := state_after (fallback_method (VInt 5)) sample_dispatcher in
  fallback_method (VInt 5) sample_dispatcher = (Returned (VInt 5), d') ∧
  __getitem__ "missing" d' =
    (Raised (TypeError "the first argument must be callable"), d') ∧
  __getitem__ "count" d' = (Returned count_args, d').
Proof.
  destruct (non_callable_fallback sample_dispatcher (VInt 5) "missing")
    as (H1 & H2 & _); [reflexivity..|].
  destruct (non_callable_fallback sample_dispatcher (VInt 5) "count")
    as (_ & _ & H3); [reflexivity..|].
  split; [exact H1|]. split; [apply H2|apply H3]; reflexivity.
Defined.

(** ** The decorator form of [add_method] *)

(** Called with a name and an object that tests false in the place of the
    function ([None], when the function is left out), [add_method]
    registers nothing and returns a partial object of the bound method
    [self.add_method] that holds the name; when the body of that bound
    method is [add_method], calling the partial object on an object [f]
    that tests true registers [f] under the name and returns [f]. *)
Theorem add_method_as_decorator
    (run_code : nat → list value → kwargs → M value)
    (d : Dispatcher) (f0 f : value) (name : string) :
  truthy_str name = true → truthy f0 = false → truthy f = true →
  (∀ s, run_code add_method_code [f] {["name" := VStr name]} s =
        add_method f (Some name) s) →
  ∃ decorator,
    add_method f0 (Some name) d = (Returned decorator, d) ∧
    decorator = VPartial self_add_method [] {["name" := VStr name]} ∧
    call run_code decorator [f] ∅ d =
      (Returned f, mkDispatcher (<[name := f]> (method_map d)) (fallback d)).
Proof.
  intros Hn Hf0 Hf Hbody. eexists. split; [|split; [reflexivity|]].
  - unfold add_method, truthy_name. rewrite Hn, Hf0. done.
  - cbn [call self_add_method app]. rewrite (left_id_L ∅ (∪)), Hbody.
    by apply add_method_named.
Qed.

Lemma add_method_as_decorator_witness :
  ∃ decorator,
    add_method VNone (Some "my.method") sample_dispatcher =
      (Returned decorator, sample_dispatcher) ∧
    decorator = VPartial self_add_method [] {["name" := VStr "my.method"]} ∧
    call decorating_code decorator [count_args] ∅ sample_dispatcher =
      (Returned count_args,
       mkDispatcher (<["my.method" := count_args]> (method_map sample_dispatcher))
         (fallback sample_dispatcher)).
Proof.
  apply (add_method_as_decorator decorating_code sample_dispatcher VNone
           count_args "my.method"); reflexivity.
Defined.

(** With the same bodies, the decorator handed an object that can be
    called but tests false returns one more decorator and registers
    nothing. *)
Example decorator_on_false_callable :
  call decorating_code (VPartial self_add_method [] {["name" := VStr "my.method"]})
    [empty_callable] ∅ sample_dispatcher =
  (Returned (VPartial self_add_method [] {["name" := VStr "my.method"]}),
   sample_dispatcher).
Proof. reflexivity. Qed.

(** ** Membership and [get] *)

(** With a fallback set that is callable and tests true, every name is
    reported as contained, whatever is registered, and [get] never returns
    its default: for an unregistered name it returns the adapter that
    [__getitem__] returns, which calls the fallback.  With a fallback that
    tests false ([None] among them), a name is contained exactly when it is
    registered, and [get] returns the default for an unregistered name.
    For a registered name [get] returns what is registered.  Neither
    changes the dispatcher. *)
Theorem membership_and_fallback
    (run_code : nat → list value → kwargs → M value)
    (d : Dispatcher) (key : string) (default : value) :
  (truthy (fallback d) = true → callable (fallback d) = true →
   __contains__ key d = (Returned true, d) ∧
   (method_map d !! key = None →
    ∃ adapter,
      __getitem__ key d = (Returned adapter, d) ∧
      get key default d = (Returned adapter, d) ∧
      ∀ args kw s, call run_code adapter args kw s =
                   call run_code (fallback d) args (kw ∪ {["_method" := VStr key]}) s)) ∧
  (truthy (fallback d) = false →
   __contains__ key d = (Returned (bool_decide (is_Some (method_map d !! key))), d) ∧
   (method_map d !! key = None → get key default d = (Returned default, d))) ∧
  (∀ v, method_map d !! key = Some v → get key default d = (Returned v, d)).
Proof.
  split; [|split].
  - intros Ht Hc. split.
    + unfold __contains__. unfold_M.
      destruct (method_map d !! key) as [v|] eqn:Hk.
      * by rewrite (getitem_hit _ _ _ Hk).
      * by rewrite (getitem_miss_fallback _ _ Hk Ht Hc).
    + intros Hk. eexists. split; [by apply getitem_miss_fallback|]. split.
      * unfold get. unfold_M. by rewrite (getitem_miss_fallback _ _ Hk Ht Hc).
      * intros args kw s. apply call_adapter.
  - intros Hf. split.
    + unfold __contains__. unfold_M.
      destruct (method_map d !! key) as [v|] eqn:Hk.
      * rewrite (getitem_hit _ _ _ Hk). by rewrite bool_decide_eq_true_2.
      * rewrite (getitem_miss _ _ Hk Hf).
        rewrite bool_decide_eq_false_2; [done|]. by intros [??].
    + intros Hk. unfold get. unfold_M. by rewrite (getitem_miss _ _ Hk Hf).
  - intros v Hk. unfold get. unfold_M. by rewrite (getitem_hit _ _ _ Hk).
Qed.

Lemma membership_and_fallback_witness :
  __contains__ "missing" sample_dispatcher = (Returned true, sample_dispatcher) ∧
  (∃ adapter,
     __getitem__ "missing" sample_dispatcher = (Returned adapter, sample_dispatcher) ∧
     get "missing" VNone sample_dispatcher = (Returned adapter, sample_dispatcher) ∧
     ∀ args kw s, call sample_code adapter args kw s =
                  call sample_code (fallback sample_dispatcher) args
                    (kw ∪ {["_method" := VStr "missing"]}) s) ∧
  __contains__ "missing" (mkDispatcher ∅ empty_callable) =
    (Returned false, mkDispatcher ∅ empty_callable) ∧
  get "missing" (VInt 0) (mkDispatcher ∅ empty_callable) =
    (Returned (VInt 0), mkDispatcher ∅ empty_callable) ∧
  get "count" VNone sample_dispatcher = (Returned count_args, sample_dispatcher).
Proof.
  destruct (membership_and_fallback sample_code sample_dispatcher "missing" VNone)
    as ([H1 H2] & _ & _); [reflexivity..|].
  destruct (membership_and_fallback sample_code (mkDispatcher ∅ empty_callable)
              "missing" (VInt 0))
    as (_ & [H3 H4] & _); [reflexivity|].
  destruct (membership_and_fallback sample_code sample_dispatcher "count" VNone)
    as (_ & _ & H5).
  split; [exact H1|]. split; [apply H2; reflexivity|].
  split; [exact H3|]. split; [apply H4; reflexivity|].
  apply H5. reflexivity.
Defined.

(** ** Registering the attributes of an object *)

(** The names of the items read are the public names of [dir], in order. *)
Lemma read_public_names (attrs : list (string * M value)) d items d1 :
  read_public attrs d = (Returned items, d1) →
  items.*1 = List.filter is_public attrs.*1.
Proof.
  revert d items. induction attrs as [|[n getattr] attrs IH]; intros d items.
  - cbn. unfold_M. by intros [= <- <-].
  - cbn [read_public fmap list_fmap List.filter fst].
    destruct (is_public n); [|apply IH].
    unfold_M. destruct (getattr d) as [[v|e] d2]; [|done].
    destruct (read_public attrs d2) as [[rest|e] d3] eqn:Hrest; [|done].
    intros [= <- <-]. cbn. f_equal. by eapply IH.
Qed.

Lemma read_public_elem (attrs : list (string * M value)) d items d1 n :
  read_public attrs d = (Returned items, d1) →
  n ∈ items.*1 ↔ n ∈ attrs.*1 ∧ is_public n = true.
Proof.
  intros Hread. rewrite (read_public_names _ _ _ _ Hread).
  rewrite !list_elem_of_In. apply filter_In.
Qed.

Lemma read_public_NoDup (attrs : list (string * M value)) d items d1 :
  read_public attrs d = (Returned items, d1) →
  NoDup attrs.*1 → NoDup items.*1.
Proof.
  intros Hread Hnd. rewrite (read_public_names _ _ _ _ Hread). clear Hread.
  induction attrs.*1 as [|n names IH]; [done|].
  apply NoDup_cons in Hnd as [Hfresh Hnd]. cbn [List.filter].
  destruct (is_public n); [|by apply IH].
  apply NoDup_cons. split; [|by apply IH].
  rewrite list_elem_of_In, filter_In, <- list_elem_of_In. by intros [? _].
Qed.

(** What [build_method_map] does with an object that is not a dict: the
    public attributes are read first, and the first read that raises ends
    the call; the callables among the values read are then registered. *)
Lemma build_method_map_object (attrs : list (string * M value)) prefix d :
  build_method_map (PObject attrs) prefix d =
  match read_public attrs d with
  | (Returned items, d1) =>
      (Returned tt,
       mkDispatcher
         (foldl (λ m p, if callable p.2 then <[prefix ++ p.1 := p.2]> m else m)
            (method_map d1) items)
         (fallback d1))
  | (Raised e, d1) => (Raised e, d1)
  end.
Proof.
  unfold build_method_map. unfold_M.
  destruct (read_public attrs d) as [[items|e] d1]; [|done].
  apply build_loop_run.
Qed.

Lemma build_method_map_object_spec
    (attrs : list (string * M value)) prefix d items d1 :
  NoDup attrs.*1 →
  read_public attrs d = (Returned items, d1) →
  let d' := state_after (build_method_map (PObject attrs) prefix) d in
  result (build_method_map (PObject attrs) prefix) d = Returned tt ∧
  (∀ n v, (n, v) ∈ items → callable v = true →
          method_map d' !! (prefix ++ n) = Some v) ∧
  (∀ n v, (n, v) ∈ items → callable v = false →
          method_map d' !! (prefix ++ n) = method_map d1 !! (prefix ++ n)) ∧
  (∀ n, n ∈ attrs.*1 → is_public n = false →
        method_map d' !! (prefix ++ n) = method_map d1 !! (prefix ++ n)) ∧
  (∀ k, (∀ n v, (n, v) ∈ items → callable v = true → k ≠ prefix ++ n) →
        method_map d' !! k = method_map d1 !! k) ∧
  fallback d' = fallback d1.
Proof.
  intros Hnd Hread. cbn zeta. unfold result, state_after.
  rewrite build_method_map_object, Hread. cbn [fst snd method_map fallback].
  pose proof (read_public_NoDup _ _ _ _ Hread Hnd) as Hnd'.
  split; [done|]. split; [|split; [|split; [|split; [|done]]]].
  - intros n v Hin Hc. by apply fold_items_entry.
  - intros n v Hin Hc. apply fold_items_other.
    intros n2 v2 Hin2 Hc2 Heq. apply (inj _) in Heq as <-.
    rewrite (items_unique _ _ _ _ Hnd' Hin Hin2) in Hc. congruence.
  - intros n Hn Hp. apply fold_items_other.
    intros n2 v2 Hin2 Hc2 Heq. apply (inj _) in Heq as <-.
    assert (n ∈ items.*1) as Hin.
    { apply list_elem_of_fmap. by exists (n, v2). }
    apply (read_public_elem _ _ _ _ n Hread) in Hin as [_ Hp']. congruence.
  - intros k Hk. by apply fold_items_other.
Qed.



Example add_object_sample :
  method_map (state_after (add_object ascii_lower sample_object) (mkDispatcher ∅ VNone))
  = {["math.add" := VFunction "add" 6]}.
Proof. reflexivity. Qed.

(** [add_class] builds an instance first: when the constructor raises,
    [add_class] raises the same exception and registers nothing of its
    own; when it returns an object, that object is handed to
    [build_method_map] with the lower-cased name of the class given and a
    dot as the prefix.  For an object that is not a dict: when reading one
    of its public attributes raises, [add_class] raises the same exception;
    when the reads return, every callable value read is registered under
    the prefix and the attribute's name, and every other key, and the
    fallback, are as the constructor and the reads left them. *)
Theorem add_class_registers_instance_methods
    (lower : string → string) (d : Dispatcher) (cls : class) :
  (∀ e d1, construct cls d = (Raised e, d1) →
           add_class lower cls d = (Raised e, d1)) ∧
  (∀ obj d1, construct cls d = (Returned obj, d1) →
     add_class lower cls d =
       build_method_map (contents obj) (lower (cls_name cls) ++ ".") d1) ∧
  (∀ obj d1 attrs, construct cls d = (Returned obj, d1) →
     contents obj = PObject attrs → NoDup attrs.*1 →
     (∀ e d2, read_public attrs d1 = (Raised e, d2) →
              add_class lower cls d = (Raised e, d2)) ∧
     (∀ items d2, read_public attrs d1 = (Returned items, d2) →
        let key n := lower (cls_name cls) ++ "." ++ n in
        let d' := state_after (add_class lower cls) d in
        result (add_class lower cls) d = Returned tt ∧
        (∀ n v, (n, v) ∈ items → callable v = true →
                method_map d' !! key n = Some v) ∧
        (∀ k, (∀ n v, (n, v) ∈ items → callable v = true → k ≠ key n) →
              method_map d' !! k = method_map d2 !! k) ∧
        fallback d' = fallback d2)).
Proof.
  assert (∀ obj d1, construct cls d = (Returned obj, d1) →
            add_class lower cls d =
              build_method_map (contents obj) (lower (cls_name cls) ++ ".") d1)
    as Hrun.
  { intros obj d1 Hcons. unfold add_class. unfold_M. by rewrite Hcons. }
  split; [|split; [done|]].
  - intros e d1 Hcons. unfold add_class. unfold_M. by rewrite Hcons.
  - intros obj d1 attrs Hcons Hobj Hnd. split.
    + intros e d2 Hread.
      by rewrite (Hrun _ _ Hcons), Hobj, build_method_map_object, Hread.
    + intros items d2 Hread. cbn zeta. unfold result, state_after.
      rewrite (Hrun _ _ Hcons), Hobj.
      destruct (build_method_map_object_spec attrs
                  (lower (cls_name cls) ++ ".") d1 items d2 Hnd Hread)
        as (Hr & Hin & _ & _ & Hout & Hfb).
      unfold result, state_after in *.
      split; [done|]. split; [|split; [|done]].
      * intros n v Hn Hc. rewrite <- append_assoc. by apply (Hin n v).
      * intros k Hk. apply Hout. intros n v Hn Hc.
        rewrite append_assoc. by apply (Hk n v).
Qed.

Lemma add_class_registers_instance_methods_witness :
  add_class ascii_lower (mkClass "Broken" (raise (Exception "no instance")))
    sample_dispatcher = (Raised (Exception "no instance"), sample_dispatcher) ∧
  add_class ascii_lower
    (mkClass "Math" (mret (mkInstance "Math" (PObject (math_attributes false)))))
    sample_dispatcher = (Raised (Exception "unreadable"), sample_dispatcher) ∧
  (let cls := mkClass "Math" (mret sample_object) in
   let items := [("add", VFunction "add" 6); ("broken", VNone);
                 ("precision", VInt 10)] in
   let key n := ascii_lower (cls_name cls) ++ "." ++ n in
   let d' := state_after (add_class ascii_lower cls) sample_dispatcher in
   result (add_class ascii_lower cls) sample_dispatcher = Returned tt ∧
   (∀ n v, (n, v) ∈ items → callable v = true → method_map d' !! key n = Some v) ∧
   (∀ k, (∀ n v, (n, v) ∈ items → callable v = true → k ≠ key n) →
         method_map d' !! k = method_map sample_dispatcher !! k) ∧
   fallback d' = fallback sample_dispatcher).
Proof.
  split; [|split].
  - apply (add_class_registers_instance_methods ascii_lower sample_dispatcher
             (mkClass "Broken" (raise (Exception "no instance")))).
    reflexivity.
  - destruct (add_class_registers_instance_methods ascii_lower sample_dispatcher
                (mkClass "Math"
                   (mret (mkInstance "Math" (PObject (math_attributes false))))))
      as (_ & _ & Hobj).
    destruct (Hobj (mkInstance "Math" (PObject (math_attributes false)))
                sample_dispatcher (math_attributes false)) as [Hraise _];
      [reflexivity..| |].
    + vm_compute. by apply (bool_decide_unpack _).
    + apply Hraise. reflexivity.
  - destruct (add_class_registers_instance_methods ascii_lower sample_dispatcher
                (mkClass "Math" (mret sample_object))) as (_ & _ & Hobj).
    destruct (Hobj sample_object sample_dispatcher (math_attributes true))
      as [_ Hret]; [reflexivity..| |].
    + vm_compute. by apply (bool_decide_unpack _).
    + apply Hret. reflexivity.
Defined.

(** ** What bulk registration never does *)

Lemma fold_items_grows prefix (items : list (string * value)) (m : gmap string value) :
  let m' := foldl (λ m p, if callable p.2 then <[prefix ++ p.1 := p.2]> m else m)
              m items in
  dom m ⊆ dom m' ∧
  (∀ k v, m' !! k = Some v → m !! k = Some v ∨ callable v = true).
Proof.
  cbn zeta. revert m. induction items as [|[n v] items IH]; intros m.
  - split; [done|]. by left.
  - cbn [foldl fst snd]. destruct (callable v) eqn:Hc; [|apply IH].
    destruct (IH (<[prefix ++ n := v]> m)) as [Hdom Hval]. split.
    + etrans; [apply (dom_insert_subseteq m (prefix ++ n) v)|done].
    + intros k w Hk. destruct (Hval k w Hk) as [Hin|Hw]; [|by right].
      apply lookup_insert_Some in Hin as [[_ <-]|[_ Hin]]; [by right|by left].
Qed.

(** The loop over the registry's own dictionary returns or raises
    [RuntimeError]; either way it has only added callables. *)
Lemma for_each_own_item_grows prefix keys d :
  let r := for_each_own_item prefix keys d in
  (r.1 = Returned tt ∨
   r.1 = Raised (RuntimeError "dictionary changed size during iteration")) ∧
  dom (method_map d) ⊆ dom (method_map r.2) ∧
  (∀ k v, method_map r.2 !! k = Some v →
          method_map d !! k = Some v ∨ callable v = true) ∧
  fallback r.2 = fallback d.
Proof.
  cbn zeta. revert d. induction keys as [|attr keys IH]; intros d.
  - cbn. split; [by left|]. split; [done|]. split; [by left|done].
  - cbn [for_each_own_item]. unfold_M.
    destruct (method_map d !! attr) as [method|] eqn:Hattr; [|apply IH].
    destruct (callable method) eqn:Hc; [|apply IH].
    rewrite setitem_run.
    assert (∀ k v, <[prefix ++ attr := method]> (method_map d) !! k = Some v →
                   method_map d !! k = Some v ∨ callable v = true) as Hstep.
    { intros k v [[_ <-]|[_ Hk]]%lookup_insert_Some; [by right|by left]. }
    destruct (method_map d !! (prefix ++ attr)) as [old|] eqn:Hkey.
    + destruct (IH (mkDispatcher (<[prefix ++ attr := method]> (method_map d))
                      (fallback d))) as (Hr & Hdom & Hval & Hfb).
      cbn [method_map fallback] in *.
      split; [done|]. split; [|split; [|done]].
      * etrans; [apply (dom_insert_subseteq _ (prefix ++ attr) method)|done].
      * intros k w Hk. destruct (Hval k w Hk) as [Hin|Hw]; [|by right].
        by apply Hstep.
    + cbn [fst snd method_map fallback].
      split; [by right|]. split; [|split; [done|done]].
      apply dom_insert_subseteq.
Qed.

(** [build_method_map] only ever adds.  Handed a dict that is not the
    registry's own, it returns without an error; handed the registry's own
    dictionary, it returns or raises [RuntimeError]; either way every
    registered name is still registered, every binding is the one there
    was or binds a callable, and the fallback is unchanged, so that a
    registry that held only callables still holds only callables.  Handed
    another object, the same holds from the state that reading the
    object's public attributes left. *)
Theorem build_method_map_only_adds
    (d : Dispatcher) (proto : prototype) (prefix : string) :
  let r := result (build_method_map proto prefix) d in
  let d' := state_after (build_method_map proto prefix) d in
  let grown_from (d0 : Dispatcher) :=
    dom (method_map d0) ⊆ dom (method_map d') ∧
    (∀ k v, method_map d' !! k = Some v →
            method_map d0 !! k = Some v ∨ callable v = true) ∧
    ((∀ k v, method_map d0 !! k = Some v → callable v = true) →
     ∀ k v, method_map d' !! k = Some v → callable v = true) ∧
    fallback d' = fallback d0 in
  match proto with
  | PDict _ => r = Returned tt ∧ grown_from d
  | PMethodMap _ =>
      (r = Returned tt ∨
       r = Raised (RuntimeError "dictionary changed size during iteration")) ∧
      grown_from d
  | PObject attrs =>
      (∀ items d1, read_public attrs d = (Returned items, d1) → r = Returned tt) ∧
      (∀ e d1, read_public attrs d = (Raised e, d1) → r = Raised e) ∧
      grown_from (state_after (read_public attrs) d)
  end.
Proof.
  cbn zeta.
  assert (∀ (m m' : gmap string value),
            (∀ k v, m' !! k = Some v → m !! k = Some v ∨ callable v = true) →
            (∀ k v, m !! k = Some v → callable v = true) →
            ∀ k v, m' !! k = Some v → callable v = true) as Hinv.
  { intros m m' Hval Hall k v Hk.
    destruct (Hval k v Hk) as [Hold|Hc]; [by eapply Hall|done]. }
  destruct proto as [items|keys|attrs].
  - unfold result, state_after. rewrite build_method_map_dict.
    cbn [fst snd method_map fallback].
    destruct (fold_items_grows prefix items (method_map d)) as [Hdom Hval].
    split; [done|]. split; [done|]. split; [done|]. split; [|done].
    by apply Hinv.
  - unfold result, state_after, build_method_map.
    destruct (for_each_own_item_grows prefix keys d) as (Hr & Hdom & Hval & Hfb).
    split; [done|]. split; [done|]. split; [done|]. split; [|done].
    by apply Hinv.
  - unfold result, state_after. rewrite build_method_map_object.
    destruct (read_public attrs d) as [[items|e] d1]; cbn [fst snd].
    + destruct (fold_items_grows prefix items (method_map d1)) as [Hdom Hval].
      cbn [method_map fallback].
      split; [done|]. split; [done|]. split; [done|]. split; [done|].
      split; [|done]. by apply Hinv.
    + split; [done|]. split; [by intros ?? [= <- <-]|].
      split; [done|]. split; [by left|]. split; [|done]. by intros Hall.
Qed.

Lemma build_method_map_only_adds_witness :
  let d := mkDispatcher {["count" := count_args]} catch_all in
  let d' := state_after (build_method_map (PMethodMap ["count"]) "own.") d in
  result (build_method_map (PMethodMap ["count"]) "own.") d =
    Raised (RuntimeError "dictionary changed size during iteration") ∧
  dom (method_map d) ⊆ dom (method_map d') ∧
  (∀ k v, method_map d' !! k = Some v → callable v = true) ∧
  fallback d' = fallback d.
Proof.
  destruct (build_method_map_only_adds
              (mkDispatcher {["count" := count_args]} catch_all)
              (PMethodMap ["count"]) "own.")
    as (_ & H2 & _ & H4 & H5).
  split; [reflexivity|]. split; [exact H2|]. split; [|exact H5].
  apply H4. intros k v Hk. cbn in Hk.
  apply lookup_singleton_Some in Hk as [_ <-]. reflexivity.
Defined.

(** ** The registry's own dictionary as the source *)

Lemma for_each_own_item_no_prefix keys d :
  for_each_own_item "" keys d = (Returned tt, d).
Proof.
  induction keys as [|attr keys IH]; [done|].
  cbn [for_each_own_item]. unfold_M.
  destruct (method_map d !! attr) as [method|] eqn:Hattr; [|done].
  destruct (callable method); [|done].
  change ("" ++ attr) with attr. rewrite setitem_run, Hattr.
  rewrite (insert_id _ _ _ Hattr).
  by replace (mkDispatcher (method_map d) (fallback d)) with d by by destruct d.
Qed.

Lemma for_each_own_item_raises prefix keys d :
  (∃ attr, attr ∈ keys ∧
           (∃ method, method_map d !! attr = Some method ∧ callable method = true) ∧
           method_map d !! (prefix ++ attr) = None) →
  (for_each_own_item prefix keys d).1 =
    Raised (RuntimeError "dictionary changed size during iteration").
Proof.
  revert d. induction keys as [|attr keys IH]; intros d (a & Hin & (f & Ha & Hf) & Hnew).
  - by apply elem_of_nil in Hin.
  - cbn [for_each_own_item]. unfold_M.
    apply elem_of_cons in Hin as [->|Hin].
    { by rewrite Ha, Hf, setitem_run, Hnew. }
    destruct (method_map d !! attr) as [method|] eqn:Hattr;
      [|apply IH; by exists a; eauto].
    destruct (callable method) eqn:Hc; [|apply IH; by exists a; eauto].
    rewrite setitem_run.
    destruct (method_map d !! (prefix ++ attr)) as [old|] eqn:Hkey; [|done].
    apply IH. exists a. cbn [method_map]. split; [done|]. split.
    + destruct (decide (a = prefix ++ attr)) as [->|Hne].
      * exists method. by rewrite lookup_insert_eq.
      * exists f. by rewrite lookup_insert_ne.
    + rewrite lookup_insert_ne; [done|]. intros Heq. congruence.
Qed.

(** Handed the registry's own dictionary, [build_method_map] and [add_dict]
    without a prefix assign every callable to the key it already has and
    leave the dispatcher as it was; with a prefix, as soon as one of the
    keys binds a callable whose prefixed key is not registered, the call
    raises [RuntimeError]: the assignment adds a key to the dictionary
    that is being iterated. *)
Theorem build_method_map_own_dict
    (d : Dispatcher) (keys : list string) (prefix : string) :
  build_method_map (PMethodMap keys) "" d = (Returned tt, d) ∧
  add_dict (PMethodMap keys) "" d = (Returned tt, d) ∧
  ((∃ attr method, attr ∈ keys ∧ method_map d !! attr = Some method ∧
                   callable method = true ∧
                   method_map d !! (prefix ++ attr) = None) →
   result (build_method_map (PMethodMap keys) prefix) d =
     Raised (RuntimeError "dictionary changed size during iteration")).
Proof.
  split; [apply for_each_own_item_no_prefix|].
  split; [apply for_each_own_item_no_prefix|].
  intros (attr & method & Hin & Ha & Hc & Hnew).
  apply for_each_own_item_raises. exists attr. eauto.
Qed.

Lemma build_method_map_own_dict_witness :
  build_method_map (PMethodMap ["count"; "fail"]) "" sample_dispatcher =
    (Returned tt, sample_dispatcher) ∧
  add_dict (PMethodMap ["count"; "fail"]) "" sample_dispatcher =
    (Returned tt, sample_dispatcher) ∧
  result (build_method_map (PMethodMap ["count"; "fail"]) "count")
    (mkDispatcher {["count" := count_args; "fail" := failing;
                    "countcount" := VInt 0]} VNone) =
    Raised (RuntimeError "dictionary changed size during iteration").
Proof.
  destruct (build_method_map_own_dict sample_dispatcher ["count"; "fail"] "")
    as (H1 & H2 & _).
  split; [exact H1|]. split; [exact H2|].
  destruct (build_method_map_own_dict
              (mkDispatcher {["count" := count_args; "fail" := failing;
                              "countcount" := VInt 0]} VNone)
              ["count"; "fail"] "count") as (_ & _ & H3).
  apply H3. exists "fail", failing.
  split; [|by repeat split]. apply elem_of_cons. right. apply elem_of_cons. by left.
Defined.
